(** * quickhttp: port search and timed static server

    A shallow embedding of [quickhttp/http_server.py] and of the command in
    [quickhttp/quickhttp.py].  Python integers are [Z], Python strings are
    [string]; the operating system (who listens on which port, which
    addresses and ports can be bound, which sockets the process holds, what
    arrives at the server, the state of the global random generator, what
    was written to the terminal) is an explicit [world] that every operation
    threads through. *)

From Stdlib Require Import ZArith Lia.
From stdpp Require Import base decidable numbers list list_numbers strings pretty gmap.

Local Open Scope Z_scope.

(** ** Outcomes of running Python code *)

(** The exceptions that the two modules raise or let through.  The socket
    layer's [gaierror] is an [OSError]. *)
Inductive exn : Type :=
  | InvalidSearchTypeError (msg : string)
  | NoAvailablePortFoundError (msg : string)
  | ValueError (msg : string)
  | TypeError (msg : string)
  | OverflowError (msg : string)
  | OSError (msg : string)
  | KeyboardInterrupt.

(** A call returns a value, raises, or (for the serve loop only, which is
    run with an iteration budget) is cut off before it finished. *)
Inductive outcome (A : Type) : Type :=
  | Ok (a : A)
  | Raise (e : exn)
  | OutOfFuel.
Arguments Ok {A} a.
Arguments Raise {A} e.
Arguments OutOfFuel {A}.

(** ** The world *)

(** What one call of [handle_request] meets while it waits. *)
Inductive arrival : Type :=
  | Request      (* a connection arrives within the timeout and is served *)
  | Quiet        (* nothing arrives within the timeout *)
  | Interrupt.   (* the user interrupts the process (Ctrl-C) *)

Record world : Type := World {
  listening : gset Z;         (* port numbers on which another process accepts connections *)
  hosts : gset string;        (* addresses that resolve to an interface of this host *)
  bind_refused : gmap Z string;
                              (* ports the system refuses to bind although nothing
                                 accepts connections on them (in use, reserved), with
                                 the text of its error *)
  serving : gset Z;           (* ports on which this process has a listening socket *)
  open_socks : nat;           (* sockets currently held open by this process *)
  probed : list Z;            (* ports a connection was attempted to, oldest first *)
  rand : nat -> nat;          (* the raw draws of the global random generator *)
  rand_calls : nat;           (* how many of them have been consumed *)
  arrivals : list arrival;    (* what the next waits of a server will meet *)
  handled : list string;      (* directory each served request was answered from *)
  stdout : list string        (* lines written with typer.echo, oldest first *)
}.

(** A TCP port is a number from 0 to 65535; the socket layer accepts no
    other. *)
Definition valid_port (port : Z) : Prop := 0 <= port <= 65535.

Global Instance valid_port_dec (port : Z) : Decision (valid_port port).
Proof. unfold valid_port. apply _. Defined.

(** The local TCP ports on which another process accepts connections: a
    number that is not a port names none.  (The servers of this process are
    in [serving]; it never probes while one of them is open.) *)
Definition listeners (w : world) : gset Z := filter valid_port (listening w).

Definition set_serving (f : gset Z -> gset Z) (w : world) : world :=
  World (listening w) (hosts w) (bind_refused w) (f (serving w)) (open_socks w)
        (probed w) (rand w) (rand_calls w) (arrivals w) (handled w) (stdout w).
Definition set_open_socks (f : nat -> nat) (w : world) : world :=
  World (listening w) (hosts w) (bind_refused w) (serving w) (f (open_socks w))
        (probed w) (rand w) (rand_calls w) (arrivals w) (handled w) (stdout w).
Definition set_probed (f : list Z -> list Z) (w : world) : world :=
  World (listening w) (hosts w) (bind_refused w) (serving w) (open_socks w)
        (f (probed w)) (rand w) (rand_calls w) (arrivals w) (handled w) (stdout w).
Definition set_rand_calls (f : nat -> nat) (w : world) : world :=
  World (listening w) (hosts w) (bind_refused w) (serving w) (open_socks w)
        (probed w) (rand w) (f (rand_calls w)) (arrivals w) (handled w) (stdout w).
Definition set_arrivals (f : list arrival -> list arrival) (w : world) : world :=
  World (listening w) (hosts w) (bind_refused w) (serving w) (open_socks w)
        (probed w) (rand w) (rand_calls w) (f (arrivals w)) (handled w) (stdout w).
Definition set_handled (f : list string -> list string) (w : world) : world :=
  World (listening w) (hosts w) (bind_refused w) (serving w) (open_socks w)
        (probed w) (rand w) (rand_calls w) (arrivals w) (f (handled w)) (stdout w).
Definition set_stdout (f : list string -> list string) (w : world) : world :=
  World (listening w) (hosts w) (bind_refused w) (serving w) (open_socks w)
        (probed w) (rand w) (rand_calls w) (arrivals w) (handled w) (f (stdout w)).

(** ** The monad of Python statements: state and exceptions *)

Definition M (A : Type) : Type := world -> outcome A * world.

Definition ret {A} (a : A) : M A := fun w => (Ok a, w).
Definition raise {A} (e : exn) : M A := fun w => (Raise e, w).
Definition bind {A B} (m : M A) (k : A -> M B) : M B :=
  fun w =>
    match m w with
    | (Ok a, w') => k a w'
    | (Raise e, w') => (Raise e, w')
    | (OutOfFuel, w') => (OutOfFuel, w')
    end.

Notation "'let*' x ':=' m 'in' k" := (bind m (fun x => k))
  (at level 10, x name, m at level 100, k at level 200).
Notation "m ';;' k" := (bind m (fun _ => k))
  (at level 100, k at level 200, right associativity).

(** [try: body except KeyboardInterrupt: handler] *)
Definition try_except_KeyboardInterrupt {A} (body handler : M A) : M A :=
  fun w =>
    match body w with
    | (Raise KeyboardInterrupt, w') => handler w'
    | r => r
    end.

(** [with cm as x: body]: [exit] runs on every way out of [body], and the
    outcome of [body] is kept (neither [closing] nor the server's [__exit__]
    swallows an exception). *)
Definition with_exit {A} (exit : world -> world) (body : M A) : M A :=
  fun w =>
    match body w with
    | (OutOfFuel, w') => (OutOfFuel, w')
    | (r, w') => (r, exit w')
    end.

(** [typer.echo(line)] *)
Definition echo (line : string) : M unit :=
  fun w => (Ok tt, set_stdout (fun out => out ++ [line]) w).

(** ** Sockets *)

Definition ECONNREFUSED : Z := 111.

(** [socket.socket(AF_INET, SOCK_STREAM)] *)
Definition socket_socket : M unit :=
  fun w => (Ok tt, set_open_socks S w).

(** [sock.close()] *)
Definition sock_close (w : world) : world := set_open_socks Nat.pred w.

(** [sock.connect_ex(("127.0.0.1", port))]: a number that is not a port is
    refused with [OverflowError] before any connection is attempted;
    otherwise the error code of the attempt comes back, 0 when something
    accepted the connection. *)
Definition connect_ex (port : Z) : M Z :=
  fun w =>
    if decide (valid_port port)
    then (Ok (if decide (port ∈ listeners w) then 0 else ECONNREFUSED),
          set_probed (fun ps => ps ++ [port]) w)
    else (Raise (OverflowError "connect_ex(): port must be 0-65535."), w).

(** [is_port_available] *)
Definition is_port_available (port : Z) : M bool :=
  socket_socket;;
  with_exit sock_close
    (let* rc := connect_ex port in
     if rc =? 0 then ret false else ret true).

(** ** Library functions used by the search *)

(** [range(a, b)] as the list it iterates over. *)
Definition py_range (a b : Z) : list Z := seqZ a (b - a).

(** [itertools.islice(iterable, stop)]: a negative [stop] is refused when the
    slice is built. *)
Definition islice (xs : list Z) (stop : Z) : M (list Z) :=
  if decide (stop < 0)
  then raise (ValueError "Stop argument for islice() must be None or an integer: 0 <= x <= sys.maxsize.")
  else ret (take (Z.to_nat stop) xs).

(** The selection loop of [random.sample]: [k] times, draw an index below the
    number of items not selected yet, take that item, and move the last
    non-selected item into its place.  [draw i] is the i-th raw draw.  (When
    the population is much larger than the sample, the library remembers the
    chosen indices in a set and redraws on a repeat instead of copying the
    population; what comes back has the same shape.) *)
Fixpoint sample_pool (draw : nat -> nat) (pool : list Z) (n i k : nat) : list Z :=
  match k with
  | O => []
  | S k' =>
      let j := (draw i mod (n - i))%nat in
      pool !!! j ::
        sample_pool draw (<[j := pool !!! (n - i - 1)%nat]> pool) n (S i) k'
  end.

(** [random.sample(population, k)] *)
Definition random_sample (population : list Z) (k : Z) : M (list Z) :=
  fun w =>
    let n := length population in
    if decide (0 <= k <= Z.of_nat n)
    then (Ok (sample_pool (fun i => rand w (rand_calls w + i)%nat)
                          population n 0 (Z.to_nat k)),
          set_rand_calls (fun c => (c + Z.to_nat k)%nat) w)
    else (Raise (ValueError "Sample larger than population or is negative"), w).

(** ** The search *)

(** [class SearchType(str, Enum)]: the members are strings and compare equal
    to their values, so a search type is represented by its string. *)
Definition sequential : string := "sequential".
Definition random : string := "random".

Definition DEFAULT_PORT_RANGE_MIN : Z := 8000.
Definition DEFAULT_PORT_RANGE_MAX : Z := 8999.
Definition DEFAULT_PORT_MAX_TRIES : Z := 50.
Definition DEFAULT_PORT_SEARCH_TYPE : string := sequential.

Definition invalid_search_type_msg (search_type : string) : string :=
  "Invalid search_type " +:+ search_type +:+ ". Available options are ["
  +:+ sequential +:+ "|" +:+ random +:+ "].".

Definition no_available_port_msg
    (range_min range_max : Z) (search_type : string) (max_tries : Z) : string :=
  "Unable to find available port in range [" +:+ pretty range_min +:+ ", "
  +:+ pretty range_max +:+ "] with " +:+ search_type +:+ " search in "
  +:+ pretty max_tries +:+ " tries.".

(** [for port in to_try: if is_port_available(port=port): return port] *)
Fixpoint first_available (to_try : list Z) : M (option Z) :=
  match to_try with
  | [] => ret None
  | port :: rest =>
      let* free := is_port_available port in
      if free then ret (Some port) else first_available rest
  end.

(** [find_available_port] *)
Definition find_available_port
    (range_min range_max max_tries : Z) (search_type : string) : M Z :=
  let max_tries := Z.min max_tries (range_max - range_min + 1) in
  let* to_try :=
    (if decide (search_type = sequential)
     then islice (py_range range_min (range_max + 1)) max_tries
     else if decide (search_type = random)
     then random_sample (py_range range_min (range_max + 1)) max_tries
     else raise (InvalidSearchTypeError (invalid_search_type_msg search_type))) in
  let* found := first_available to_try in
  match found with
  | Some port => ret port
  | None =>
      raise (NoAvailablePortFoundError
               (no_available_port_msg range_min range_max search_type max_tries))
  end.

(** ** The timed server *)

(** [class TimedHTTPServer(HTTPServer)]: the fields the module reads. *)
Record TimedHTTPServer : Type := {
  server_address : string * Z;
  RequestHandlerClass : string;   (* the directory the handler serves *)
  timeout : Z;
  timeout_reached : bool
}.

(** [TimedHTTPServer.__init__]: sets the two fields, then the base class
    binds and listens.  The bind fails when the address does not resolve
    ([gaierror], an [OSError]), when the port is not a port number
    ([OverflowError]), when something already listens on the port, and when
    the system refuses the port for a reason of its own; the base class
    closes the socket again before it lets the error out.  (The system's
    choice of a port when asked for port 0 is not modelled.) *)
Definition TimedHTTPServer_init
    (address : string * Z) (handler : string) (timeout : Z) : M TimedHTTPServer :=
  fun w =>
    if decide (address.1 ∈ hosts w)
    then
      if decide (valid_port address.2)
      then
        if decide (address.2 ∈ listeners w \/ address.2 ∈ serving w)
        then (Raise (OSError "[Errno 98] Address already in use"), w)
        else
          match bind_refused w !! address.2 with
          | Some msg => (Raise (OSError msg), w)
          | None =>
              (Ok {| server_address := address; RequestHandlerClass := handler;
                     timeout := timeout; timeout_reached := false |},
               set_open_socks S (set_serving (fun s => {[address.2]} ∪ s) w))
          end
      else (Raise (OverflowError "bind(): port must be 0-65535."), w)
    else (Raise (OSError "[Errno -2] Name or service not known"), w).

(** [TimedHTTPServer.handle_timeout] *)
Definition handle_timeout (self : TimedHTTPServer) : TimedHTTPServer :=
  {| server_address := server_address self;
     RequestHandlerClass := RequestHandlerClass self;
     timeout := timeout self;
     timeout_reached := true |}.

(** [httpd.handle_request()]: waits for one request for at most
    [self.timeout]; serves it, or calls [handle_timeout], or is interrupted.
    When nothing more is due to arrive, the wait times out. *)
Definition handle_request (self : TimedHTTPServer) : M TimedHTTPServer :=
  fun w =>
    match arrivals w with
    | Request :: rest =>
        (Ok self,
         set_handled (fun h => h ++ [RequestHandlerClass self])
           (set_arrivals (fun _ => rest) w))
    | Quiet :: rest => (Ok (handle_timeout self), set_arrivals (fun _ => rest) w)
    | Interrupt :: rest => (Raise KeyboardInterrupt, set_arrivals (fun _ => rest) w)
    | [] => (Ok (handle_timeout self), w)
    end.

(** [server_close()], which [HTTPServer.__exit__] calls. *)
Definition server_close (self : TimedHTTPServer) (w : world) : world :=
  set_open_socks Nat.pred
    (set_serving (fun s => s ∖ {[(server_address self).2]}) w).

(** [while not httpd.timeout_reached: httpd.handle_request()], for at most
    [fuel] iterations. *)
Fixpoint serve_until_timeout (fuel : nat) (httpd : TimedHTTPServer) : M TimedHTTPServer :=
  if timeout_reached httpd then ret httpd
  else
    match fuel with
    | O => fun w => (OutOfFuel, w)
    | S fuel' =>
        let* httpd' := handle_request httpd in
        serve_until_timeout fuel' httpd'
    end.

Definition timeout_msg : string := "Timeout reached.".
Definition interrupt_msg : string := " KeyboardInterrupt received.".

(** [run_timed_http_server] *)
Definition run_timed_http_server
    (fuel : nat) (address : string) (port : Z) (directory : string) (timeout : Z)
    : M unit :=
  let handler := directory in
  let* httpd := TimedHTTPServer_init (address, port) handler timeout in
  with_exit (server_close httpd)
    (try_except_KeyboardInterrupt
       (serve_until_timeout fuel httpd;;
        echo timeout_msg)
       (echo interrupt_msg)).

(** The bind of a server on [(address, port)] goes through. *)
Definition can_bind (address : string) (port : Z) (w : world) : Prop :=
  address ∈ hosts w /\ valid_port port
  /\ (port ∉ listeners w) /\ (port ∉ serving w)
  /\ bind_refused w !! port = None.

Global Instance can_bind_dec (address : string) (port : Z) (w : world) :
  Decision (can_bind address port w).
Proof. unfold can_bind. apply _. Defined.

(** ** The command *)

(** Modelled from the spec: [quickhttp.core.run_timed_http_server], the
    function that [quickhttp.py] imports and calls with the keywords [port],
    [directory] and [time]; the module [quickhttp.core] is not among the
    sources.  The spec (2 and 4.3) has the caller ask the Timed Static
    Server to run with that port, directory and timeout: it binds a listener
    that serves the directory, waits for one request at a time until a wait
    exceeds the timeout or an interrupt arrives, and releases the socket on
    every way out.  That is the server of [http_server.py], bound on the
    address that the start message of the command names. *)
Definition core_run_timed_http_server
    (fuel : nat) (port : Z) (directory : string) (time : Z) : M unit :=
  run_timed_http_server fuel "0.0.0.0" port directory time.

Section Command.

(** [pytimeparse.parse]: the seconds a time expression stands for, [None]
    when it cannot be read. *)
Variable parse : string -> option Z.
(** [str(timedelta(seconds=n))] *)
Variable str_timedelta : Z -> string.

Definition starting_msg (port : Z) (directory duration : string) : string :=
  "Starting http.server at http://0.0.0.0:" +:+ pretty port
  +:+ " for directory [" +:+ directory +:+ "]. Server will stay alive for "
  +:+ duration +:+ ".".

Definition closed_msg : string := "Server closed.".

(** The body of the [quickhttp] command ([--version] is answered by its
    callback before the body runs).  [timedelta(seconds=None)] raises, so
    past the start message [time_sec] is a number. *)
Definition quickhttp
    (fuel : nat) (directory : string) (time : string) (port : option Z)
    (port_range_min port_range_max port_max_tries : Z)
    (port_search_type : string) : M unit :=
  let time_sec := parse time in
  let* port :=
    (match port with
     | Some p =>
         if decide (p = 0)   (* [not port] holds for 0 as it does for None *)
         then find_available_port port_range_min port_range_max
                                  port_max_tries port_search_type
         else ret p
     | None =>
         find_available_port port_range_min port_range_max
                             port_max_tries port_search_type
     end) in
  let* seconds :=
    (match time_sec with
     | Some s => ret s
     | None =>
         raise (TypeError "unsupported type for timedelta seconds component: NoneType")
     end) in
  echo (starting_msg port directory (str_timedelta seconds));;
  core_run_timed_http_server fuel port directory seconds;;
  echo closed_msg.

End Command.

(** A world in which nothing has happened yet, with listeners on [busy]. *)
Definition quiet_world (busy : list Z) : world :=
  World (list_to_set busy) {["0.0.0.0"; "127.0.0.1"]} ∅ ∅ 0 [] (fun i => i) 0 [] [] [].

(** A world with listeners on all of 9000..9010 but 9007. *)
Definition only_9007_free : world :=
  quiet_world [9000; 9001; 9002; 9003; 9004; 9005; 9006; 9008; 9009; 9010].

(** ** What a scan does, as plain list functions *)

(** The ports a scan of [to_try] connects to when [busy] are the ports with a
    listener: all up to and including the first port without a listener,
    and none from the first number that is not a port. *)
Fixpoint scanned (busy : gset Z) (to_try : list Z) : list Z :=
  match to_try with
  | [] => []
  | port :: rest =>
      if decide (valid_port port)
      then port :: (if decide (port ∈ busy) then scanned busy rest else [])
      else []
  end.

(** How the scan ends: on the first port without a listener, at the end of
    the list, or with the error for a number that is not a port. *)
Fixpoint scan_end (busy : gset Z) (to_try : list Z) : outcome (option Z) :=
  match to_try with
  | [] => Ok None
  | port :: rest =>
      if decide (valid_port port)
      then if decide (port ∈ busy) then scan_end busy rest else Ok (Some port)
      else Raise (OverflowError "connect_ex(): port must be 0-65535.")
  end.

(** The outcome of the search once the candidates are known. *)
Definition search_outcome
    (busy : gset Z) (to_try : list Z) (msg : string) : outcome Z :=
  match scan_end busy to_try with
  | Ok (Some port) => Ok port
  | Ok None => Raise (NoAvailablePortFoundError msg)
  | Raise e => Raise e
  | OutOfFuel => OutOfFuel
  end.

(** * Properties *)

(** ** The monad and the world *)

Arguments listeners : simpl never.

Lemma world_eq (w1 w2 : world) :
  listening w1 = listening w2 -> hosts w1 = hosts w2 ->
  bind_refused w1 = bind_refused w2 -> serving w1 = serving w2 ->
  open_socks w1 = open_socks w2 ->
  probed w1 = probed w2 -> rand w1 = rand w2 -> rand_calls w1 = rand_calls w2 ->
  arrivals w1 = arrivals w2 -> handled w1 = handled w2 -> stdout w1 = stdout w2 ->
  w1 = w2.
Proof. destruct w1, w2; simpl; intros; subst; reflexivity. Qed.

Lemma set_probed_nil (w : world) : set_probed (fun ps => ps ++ []) w = w.
Proof. apply world_eq; simpl; auto using app_nil_r. Qed.

Lemma set_probed_app (w : world) (l1 l2 : list Z) :
  set_probed (fun ps => ps ++ l2) (set_probed (fun ps => ps ++ l1) w)
  = set_probed (fun ps => ps ++ l1 ++ l2) w.
Proof. apply world_eq; simpl; auto using app_assoc. Qed.

(** Who listens is not for the program to change. *)
Lemma listeners_frame (w1 w2 : world) :
  listening w1 = listening w2 -> listeners w1 = listeners w2.
Proof. unfold listeners. by intros ->. Qed.

Lemma elem_of_listeners (port : Z) (w : world) :
  port ∈ listeners w <-> valid_port port /\ port ∈ listening w.
Proof. unfold listeners. apply elem_of_filter. Qed.

Lemma listeners_valid (port : Z) (w : world) :
  port ∈ listeners w -> 0 <= port <= 65535.
Proof. by intros [? _]%elem_of_listeners. Qed.

(** ** The availability check *)

(** One check is at most one connection attempt; its answer is read off the
    listeners, and the probing socket is closed again, also when the port
    number is refused. *)
Lemma is_port_available_eval (port : Z) (w : world) :
  is_port_available port w
  = if decide (valid_port port)
    then (Ok (bool_decide (port ∉ listeners w)),
          set_probed (fun ps => ps ++ [port]) w)
    else (Raise (OverflowError "connect_ex(): port must be 0-65535."), w).
Proof.
  unfold is_port_available, bind, with_exit, socket_socket, connect_ex; simpl.
  destruct (decide (valid_port port)) as [Hvalid | Hinvalid]; simpl.
  - change (listeners (set_open_socks S w)) with (listeners w).
    destruct (decide (port ∈ listeners w)) as [Hin | Hout]; simpl.
    + rewrite bool_decide_eq_false_2 by tauto. reflexivity.
    + rewrite bool_decide_eq_true_2 by assumption. reflexivity.
  - f_equal. by destruct w.
Qed.

(** ** The scan *)

Lemma first_available_eval (to_try : list Z) (w : world) :
  first_available to_try w
  = (scan_end (listeners w) to_try,
     set_probed (fun ps => ps ++ scanned (listeners w) to_try) w).
Proof.
  revert w. induction to_try as [| port rest IH]; intros w; simpl.
  - unfold ret. by rewrite set_probed_nil.
  - unfold bind. rewrite is_port_available_eval.
    destruct (decide (valid_port port)) as [Hvalid | Hinvalid].
    + destruct (decide (port ∈ listeners w)) as [Hin | Hout].
      * rewrite bool_decide_eq_false_2 by tauto.
        rewrite IH.
        change (listeners (set_probed (fun ps => ps ++ [port]) w)) with (listeners w).
        by rewrite set_probed_app.
      * rewrite bool_decide_eq_true_2 by assumption. reflexivity.
    + by rewrite set_probed_nil.
Qed.

Lemma scanned_prefix (busy : gset Z) (to_try : list Z) :
  scanned busy to_try `prefix_of` to_try.
Proof.
  induction to_try as [| port rest IH]; simpl; [done |].
  case_decide; [| apply prefix_nil].
  apply prefix_cons. case_decide; [done | apply prefix_nil].
Qed.

(** A scan of ports that all have a listener goes through the whole list. *)
Lemma scanned_all_busy (w : world) (to_try : list Z) :
  Forall (fun p => p ∈ listeners w) to_try ->
  scanned (listeners w) to_try = to_try /\ scan_end (listeners w) to_try = Ok None.
Proof.
  induction 1 as [| port rest Hport _ [IHs IHf]]; simpl; [done |].
  rewrite !decide_True by (done || by eapply listeners_valid).
  by rewrite IHs.
Qed.


(** A scan that finds nothing has gone through the whole list, and a scan
    that finds a port stopped on it. *)
Lemma scan_end_None (busy : gset Z) (to_try : list Z) :
  scan_end busy to_try = Ok None ->
  scanned busy to_try = to_try /\ Forall (fun p => p ∈ busy) to_try.
Proof.
  induction to_try as [| port rest IH]; simpl; [done |].
  case_decide; [| done]. case_decide; [| done].
  intros [-> ?]%IH. by split; [| constructor].
Qed.


(** A scan ends with a port, at the end of its list, or on the error for a
    number that is not a port. *)
Lemma scan_end_cases (busy : gset Z) (to_try : list Z) :
  (exists found, scan_end busy to_try = Ok found)
  \/ scan_end busy to_try
     = Raise (OverflowError "connect_ex(): port must be 0-65535.").
Proof.
  induction to_try as [| port rest IH]; simpl; [left; by eexists |].
  case_decide; [| by right]. case_decide; [done | left; by eexists].
Qed.

(** ** Candidate lists *)

Lemma take_seqZ (m n k : Z) :
  0 <= k <= n -> take (Z.to_nat k) (seqZ m n) = seqZ m k.
Proof.
  intros Hk. replace n with (k + (n - k)) by lia.
  rewrite seqZ_app by lia.
  rewrite take_app_length'; [done | by rewrite length_seqZ].
Qed.

Lemma length_py_range (a b : Z) : a <= b -> Z.of_nat (length (py_range a b)) = b - a.
Proof. intros. unfold py_range. rewrite length_seqZ. lia. Qed.

Lemma find_available_port_sequential_eval (range_min range_max max_tries : Z) (w : world) :
  let tries := Z.min max_tries (range_max - range_min + 1) in
  0 <= tries ->
  find_available_port range_min range_max max_tries sequential w
  = (search_outcome (listeners w) (seqZ range_min tries)
       (no_available_port_msg range_min range_max sequential tries),
     set_probed (fun ps => ps ++ scanned (listeners w) (seqZ range_min tries)) w).
Proof.
  intros tries Htries. unfold find_available_port. fold tries.
  rewrite decide_True by done.
  unfold bind at 1, islice. rewrite decide_False by lia. unfold ret at 1.
  unfold py_range. rewrite take_seqZ by lia.
  unfold bind. rewrite first_available_eval. unfold search_outcome.
  by destruct (scan_end _ _) as [[port |] | e |].
Qed.

Lemma find_available_port_random_eval (range_min range_max max_tries : Z) (w : world) :
  let tries := Z.min max_tries (range_max - range_min + 1) in
  range_min <= range_max + 1 -> 0 <= tries ->
  exists to_try,
    random_sample (py_range range_min (range_max + 1)) tries w
    = (Ok to_try, set_rand_calls (fun c => (c + Z.to_nat tries)%nat) w)
    /\ find_available_port range_min range_max max_tries random w
       = (search_outcome (listeners w) to_try
            (no_available_port_msg range_min range_max random tries),
          set_probed (fun ps => ps ++ scanned (listeners w) to_try)
            (set_rand_calls (fun c => (c + Z.to_nat tries)%nat) w)).
Proof.
  intros tries Hrange Htries.
  assert (Hsample : 0 <= tries <= Z.of_nat (length (py_range range_min (range_max + 1)))).
  { rewrite length_py_range by lia. lia. }
  eexists. split.
  - unfold random_sample. rewrite decide_True by done. reflexivity.
  - unfold find_available_port. fold tries.
    rewrite decide_False by done. rewrite decide_True by done.
    unfold bind at 1, random_sample. rewrite decide_True by done.
    unfold bind. rewrite first_available_eval. unfold search_outcome. simpl.
    change (listeners (set_rand_calls _ w)) with (listeners w).
    by destruct (scan_end _ _) as [[port |] | e |].
Qed.

(** ** Sampling without replacement *)

(** One round of the selection loop, on a pool whose first [m] items are the
    ones not selected yet: the item taken is one of them, and the first
    [m - 1] items of the new pool are the others. *)
Lemma pool_step (pool : list Z) (m j : nat) :
  (j < m)%nat -> (m <= length pool)%nat -> NoDup (take m pool) ->
  let pool' := <[j := pool !!! (m - 1)%nat]> pool in
  pool !!! j ∈ take m pool
  /\ NoDup (take (m - 1) pool')
  /\ (forall x, x ∈ take (m - 1) pool' -> x ∈ take m pool /\ x <> pool !!! j).
Proof.
  intros Hj Hm Hnodup pool'.
  assert (Hinj : forall a b x, (a < m)%nat -> (b < m)%nat ->
            pool !! a = Some x -> pool !! b = Some x -> a = b).
  { intros a b x Ha Hb Hxa Hxb. rewrite NoDup_alt in Hnodup.
    apply (Hnodup a b x); by rewrite lookup_take_lt. }
  assert (Hatj : pool !! j = Some (pool !!! j))
    by (apply list_lookup_lookup_total_lt; lia).
  assert (Hlast : pool !! (m - 1)%nat = Some (pool !!! (m - 1)%nat))
    by (apply list_lookup_lookup_total_lt; lia).
  assert (Hlook : forall t x, (t < m - 1)%nat -> pool' !! t = Some x ->
            exists t', (t' < m)%nat /\ t' <> j /\ pool !! t' = Some x
                       /\ t' = if decide (t = j) then (m - 1)%nat else t).
  { intros t x Ht. unfold pool'. destruct (decide (t = j)) as [-> | Hne].
    - rewrite list_lookup_insert_eq by lia. intros [= <-].
      exists (m - 1)%nat. split_and!; [lia | lia | done | done].
    - rewrite list_lookup_insert_ne by done. intros Hx.
      exists t. split_and!; [lia | done | done | done]. }
  split_and!.
  - apply elem_of_take. exists j. done.
  - apply NoDup_alt. intros a b x [Hxa Ha]%lookup_take_Some [Hxb Hb]%lookup_take_Some.
    destruct (Hlook a x Ha Hxa) as (ta & Hta & _ & Hpa & Ea).
    destruct (Hlook b x Hb Hxb) as (tb & Htb & _ & Hpb & Eb).
    pose proof (Hinj ta tb x Hta Htb Hpa Hpb) as Eab.
    repeat case_decide; lia.
  - intros x (t & Hx & Ht)%elem_of_take.
    destruct (Hlook t x Ht Hx) as (t' & Ht' & Hne & Hp & _).
    split.
    + apply elem_of_take. by exists t'.
    + intros ->. apply Hne. by apply (Hinj t' j (pool !!! j)).
Qed.

(** The selection loop returns [k] different items of the part of the pool
    that was not selected before. *)
Lemma sample_pool_distinct (draw : nat -> nat) (k : nat) :
  forall (pool : list Z) (n i : nat),
    length pool = n -> (i + k <= n)%nat -> NoDup (take (n - i) pool) ->
    length (sample_pool draw pool n i k) = k
    /\ NoDup (sample_pool draw pool n i k)
    /\ (forall x, x ∈ sample_pool draw pool n i k -> x ∈ take (n - i) pool).
Proof.
  induction k as [| k IH]; intros pool n i Hlen Hik Hnodup; simpl.
  - split_and!; [done | constructor | by intros x ?%elem_of_nil].
  - set (j := (draw i mod (n - i))%nat).
    assert (Hj : (j < n - i)%nat) by (apply Nat.mod_upper_bound; lia).
    destruct (pool_step pool (n - i) j Hj ltac:(lia) Hnodup) as (Hin & Hnd & Hsub).
    replace (n - i - 1)%nat with (n - S i)%nat in * by lia.
    destruct (IH (<[j := pool !!! (n - S i)%nat]> pool) n (S i)) as (IHlen & IHnd & IHsub);
      [by rewrite length_insert | lia | done |].
    split_and!.
    + by rewrite IHlen.
    + constructor; [| done]. intros Hx%IHsub%Hsub. by destruct Hx.
    + intros x [-> | Hx%IHsub%Hsub]%elem_of_cons; [done | by destruct Hx].
Qed.

(** [random.sample] on a range: as many ports as asked for, all different,
    all of the range. *)
Lemma random_sample_range (a b k : Z) (w : world) (sample : list Z) (w' : world) :
  random_sample (py_range a b) k w = (Ok sample, w') ->
  Z.of_nat (length sample) = k /\ NoDup sample /\ (forall p, p ∈ sample -> a <= p < b).
Proof.
  unfold random_sample. case_decide as Hk; [| done]. intros [= <- _].
  destruct (sample_pool_distinct (fun i => rand w (rand_calls w + i)%nat) (Z.to_nat k)
              (py_range a b) (length (py_range a b)) 0%nat) as (Hlen & Hnd & Hsub);
    [done | lia | |].
  { rewrite Nat.sub_0_r, firstn_all. apply NoDup_seqZ. }
  split_and!; [lia | done |].
  intros p Hp%Hsub. rewrite Nat.sub_0_r, firstn_all in Hp.
  apply elem_of_seqZ in Hp. lia.
Qed.

(** ** Bounds on a scan *)

Lemma scanned_bounds (busy : gset Z) (to_try : list Z) :
  NoDup to_try ->
  NoDup (scanned busy to_try)
  /\ (forall p, p ∈ scanned busy to_try -> p ∈ to_try)
  /\ (length (scanned busy to_try) <= length to_try)%nat
  /\ (scan_end busy to_try = Ok None -> scanned busy to_try = to_try).
Proof.
  intros Hnd. destruct (scanned_prefix busy to_try) as [rest Hrest].
  split_and!.
  - rewrite Hrest in Hnd. by apply NoDup_app in Hnd as [? _].
  - intros p Hp. rewrite Hrest. apply elem_of_app. by left.
  - rewrite Hrest at 2. rewrite length_app. lia.
  - by intros [? _]%scan_end_None.
Qed.

(** On ports that are all valid the scan raises nothing. *)
Lemma scan_end_valid (busy : gset Z) (to_try : list Z) :
  Forall valid_port to_try -> exists found, scan_end busy to_try = Ok found.
Proof.
  induction 1 as [| port rest Hport _ IH]; simpl; [by eexists |].
  rewrite decide_True by done. case_decide; [done | by eexists].
Qed.

(** ** The search on any input *)

Lemma set_rand_calls_0 (w : world) : set_rand_calls (fun c => (c + 0)%nat) w = w.
Proof. apply world_eq; simpl; auto with lia. Qed.

Lemma search_type_cases (search_type : string) :
  (search_type = sequential \/ search_type = random)
  \/ (search_type <> sequential /\ search_type <> random).
Proof.
  destruct (decide (search_type = sequential)); [by left; left |].
  destruct (decide (search_type = random)); [by left; right | by right].
Qed.

Lemma find_available_port_unknown_type
    (range_min range_max max_tries : Z) (search_type : string) (w : world) :
  search_type <> sequential -> search_type <> random ->
  find_available_port range_min range_max max_tries search_type w
  = (Raise (InvalidSearchTypeError (invalid_search_type_msg search_type)), w).
Proof.
  intros Hseq Hrand. unfold find_available_port. by rewrite !decide_False.
Qed.

(** With a recognised search type and a negative try count, building the
    candidates fails. *)
Lemma find_available_port_negative
    (range_min range_max max_tries : Z) (search_type : string) (w : world) :
  search_type = sequential \/ search_type = random ->
  Z.min max_tries (range_max - range_min + 1) < 0 ->
  exists msg,
    find_available_port range_min range_max max_tries search_type w
    = (Raise (ValueError msg), w).
Proof.
  intros [-> | ->] Hneg; unfold find_available_port.
  - rewrite decide_True by done. unfold bind, islice.
    rewrite decide_True by done. by eexists.
  - rewrite decide_False by done. rewrite decide_True by done.
    unfold bind, random_sample. rewrite decide_False by lia. by eexists.
Qed.

(** With a recognised search type and a try count that is not negative, the
    search scans a list of exactly that many different ports of the range;
    besides the probe log only the generator's counter moves. *)
Lemma find_available_port_candidates
    (range_min range_max max_tries : Z) (search_type : string) (w : world) :
  search_type = sequential \/ search_type = random ->
  let tries := Z.min max_tries (range_max - range_min + 1) in
  0 <= tries ->
  exists to_try calls,
    Z.of_nat (length to_try) = tries
    /\ NoDup to_try
    /\ (forall p, p ∈ to_try -> range_min <= p <= range_max)
    /\ (search_type = sequential -> to_try = seqZ range_min tries)
    /\ find_available_port range_min range_max max_tries search_type w
       = (search_outcome (listeners w) to_try
            (no_available_port_msg range_min range_max search_type tries),
          set_probed (fun ps => ps ++ scanned (listeners w) to_try)
            (set_rand_calls (fun c => (c + calls)%nat) w)).
Proof.
  intros [-> | ->] tries Htries.
  - pose proof (find_available_port_sequential_eval range_min range_max max_tries w) as E.
    simpl in E. fold tries in E. specialize (E Htries).
    exists (seqZ range_min tries), 0%nat.
    rewrite set_rand_calls_0.
    split_and!; try done.
    + rewrite length_seqZ. lia.
    + apply NoDup_seqZ.
    + intros p Hp%elem_of_seqZ. unfold tries in Hp. lia.
  - destruct (find_available_port_random_eval range_min range_max max_tries w)
      as (to_try & Hsample & E); [unfold tries in Htries; lia | done |].
    fold tries in Hsample, E.
    apply random_sample_range in Hsample as (Hlen & Hnd & Hin).
    exists to_try, (Z.to_nat tries).
    split_and!; try done.
    intros p Hp%Hin. lia.
Qed.

(** On a range of port numbers the scan raises nothing. *)
Lemma search_outcome_valid
    (busy : gset Z) (to_try : list Z) (msg : string) (range_min range_max : Z) :
  0 <= range_min -> range_max <= 65535 ->
  (forall p, p ∈ to_try -> range_min <= p <= range_max) ->
  (exists port, scan_end busy to_try = Ok (Some port)
                /\ search_outcome busy to_try msg = Ok port)
  \/ (scan_end busy to_try = Ok None
      /\ search_outcome busy to_try msg = Raise (NoAvailablePortFoundError msg)).
Proof.
  intros Hmin Hmax Hin.
  destruct (scan_end_valid busy to_try) as [[port |] E].
  - apply Forall_forall. intros p Hp%Hin. unfold valid_port. lia.
  - left. exists port. unfold search_outcome. by rewrite E.
  - right. unfold search_outcome. by rewrite E.
Qed.


(** The search touches nothing but the probe log and the random generator. *)
Lemma find_available_port_frame
    (range_min range_max max_tries : Z) (search_type : string) (w : world) :
  exists ps calls,
    (find_available_port range_min range_max max_tries search_type w).2
    = set_probed (fun l => l ++ ps) (set_rand_calls (fun c => (c + calls)%nat) w)
    /\ (find_available_port range_min range_max max_tries search_type w).1
       <> OutOfFuel.
Proof.
  assert (Hsame : w = set_probed (fun l => l ++ [])
                        (set_rand_calls (fun c => (c + 0)%nat) w)).
  { by rewrite set_probed_nil, set_rand_calls_0. }
  destruct (search_type_cases search_type) as [Htype | [Hseq Hrand]].
  - destruct (decide (Z.min max_tries (range_max - range_min + 1) < 0)) as [Hneg | Hpos].
    + destruct (find_available_port_negative range_min range_max max_tries
                  search_type w Htype Hneg) as [msg ->].
      exists [], 0%nat. by split.
    + destruct (find_available_port_candidates range_min range_max max_tries
                  search_type w Htype ltac:(lia))
        as (to_try & calls & _ & _ & _ & _ & ->).
      eexists _, calls. split; [done |]. simpl. unfold search_outcome.
      destruct (scan_end_cases (listeners w) to_try) as [[[p |] ->] | ->]; done.
  - rewrite find_available_port_unknown_type by done.
    exists [], 0%nat. by split.
Qed.

(** ** The search: specified properties *)

(** C3: for a range with [range_min <= range_max] and [max_tries >= 1], the
    search works with the try count [min(max_tries, range_max - range_min + 1)]:
    the ports it probes are pairwise different ports of the range, at most
    that many (so never more than the range holds); and on a range of port
    numbers (0 to 65535), with a recognised search type, exactly that many
    when no port is returned, which is [max_tries] when the range is at
    least that large. *)
Theorem find_available_port_probe_bounds
    (range_min range_max max_tries : Z) (search_type : string) (w : world) :
  range_min <= range_max -> 1 <= max_tries ->
  let tries := Z.min max_tries (range_max - range_min + 1) in
  let r := (find_available_port range_min range_max max_tries search_type w).1 in
  let w' := (find_available_port range_min range_max max_tries search_type w).2 in
  exists ps,
    probed w' = probed w ++ ps
    /\ NoDup ps
    /\ (forall p, p ∈ ps -> range_min <= p <= range_max)
    /\ Z.of_nat (length ps) <= tries
    /\ tries <= range_max - range_min + 1
    /\ (search_type = sequential \/ search_type = random ->
        0 <= range_min -> range_max <= 65535 ->
        (forall port, r <> Ok port) ->
        Z.of_nat (length ps) = tries
        /\ (max_tries <= range_max - range_min + 1 -> Z.of_nat (length ps) = max_tries)).
Proof.
  intros Hrange Htries tries r w'.
  assert (Hbound : 0 <= tries <= range_max - range_min + 1) by (unfold tries; lia).
  destruct (search_type_cases search_type) as [Htype | [Hseq Hrand]].
  - destruct (find_available_port_candidates range_min range_max max_tries
                search_type w Htype ltac:(lia))
      as (to_try & calls & Hlen & Hnd & Hin & _ & E).
    fold tries in Hlen, E.
    unfold r, w'. rewrite E. simpl.
    destruct (scanned_bounds (listeners w) to_try Hnd) as (Hnd' & Hsub & Hle & Hall).
    exists (scanned (listeners w) to_try).
    split_and!; [done | done | by intros p ?%Hsub%Hin | lia | lia |].
    intros _ Hmin Hmax Hfail.
    destruct (search_outcome_valid (listeners w) to_try
                (no_available_port_msg range_min range_max search_type tries)
                range_min range_max Hmin Hmax Hin)
      as [(port & _ & Hport) | [Hend _]].
    + by destruct (Hfail port).
    + rewrite (Hall Hend). split; [done | unfold tries in *; lia].
  - exists []. unfold r, w'.
    rewrite find_available_port_unknown_type by done. simpl.
    split_and!; [by rewrite app_nil_r | constructor | by intros p ?%elem_of_nil
                | lia | lia | by intros [? | ?]].
Qed.

Lemma find_available_port_probe_bounds_witness :
  9000 <= 9002 /\ 1 <= 10
  /\ exists ps,
       probed (find_available_port 9000 9002 10 sequential
                 (quiet_world [9000; 9001; 9002])).2 = [] ++ ps
       /\ NoDup ps /\ Z.of_nat (length ps) <= 3.
Proof.
  split; [lia |]. split; [lia |].
  destruct (find_available_port_probe_bounds 9000 9002 10 sequential
              (quiet_world [9000; 9001; 9002]) ltac:(lia) ltac:(lia))
    as (ps & Hps & Hnd & _ & Hlen & _).
  exists ps. split_and!; [exact Hps | exact Hnd | exact Hlen].
Defined.



(** C5: for a range with [range_min <= range_max] and [max_tries >= 1], the
    random search draws a sample of [min(max_tries, range_max - range_min + 1)]
    pairwise different ports of the range, and probes a prefix of that
    sample: no port is probed twice in one call. *)
Theorem random_search_no_repeat
    (range_min range_max max_tries : Z) (w : world) :
  range_min <= range_max -> 1 <= max_tries ->
  let tries := Z.min max_tries (range_max - range_min + 1) in
  let w' := (find_available_port range_min range_max max_tries random w).2 in
  exists sample ps,
    (random_sample (py_range range_min (range_max + 1)) tries w).1 = Ok sample
    /\ Z.of_nat (length sample) = tries
    /\ NoDup sample
    /\ (forall p, p ∈ sample -> range_min <= p <= range_max)
    /\ ps `prefix_of` sample
    /\ probed w' = probed w ++ ps
    /\ NoDup ps.
Proof.
  intros Hrange Htries tries w'.
  destruct (find_available_port_random_eval range_min range_max max_tries w)
    as (to_try & Hsample & E); [lia | fold tries; lia |].
  fold tries in Hsample, E.
  exists to_try, (scanned (listeners w) to_try).
  unfold w'. rewrite E, Hsample. simpl.
  apply random_sample_range in Hsample as (Hlen & Hnd & Hin).
  destruct (scanned_bounds (listeners w) to_try Hnd) as (Hnd' & _).
  split_and!; [done | done | done | | apply scanned_prefix | done | done].
  intros p Hp%Hin. lia.
Qed.

Lemma random_search_no_repeat_witness :
  9000 <= 9010 /\ 1 <= 50
  /\ exists ps,
       probed (find_available_port 9000 9010 50 random only_9007_free).2 = [] ++ ps
       /\ NoDup ps.
Proof.
  split; [lia |]. split; [lia |].
  destruct (random_search_no_repeat 9000 9010 50 only_9007_free ltac:(lia) ltac:(lia))
    as (sample & ps & _ & _ & _ & _ & _ & Hps & Hnd).
  exists ps. split; [exact Hps | exact Hnd].
Defined.

(** The check answers [False] exactly on the ports with a listener. *)
Lemma is_port_available_false_iff (port : Z) (w : world) :
  (is_port_available port w).1 = Ok false <-> port ∈ listeners w.
Proof.
  rewrite is_port_available_eval. split.
  - case_decide; [| done]. simpl. intros [= Hno].
    apply bool_decide_eq_false in Hno. by apply dec_stable.
  - intros H. rewrite decide_True by (by eapply listeners_valid). simpl.
    f_equal. apply bool_decide_eq_false. tauto.
Qed.

(** C6: for a range with [range_min <= range_max] and [max_tries >= 1], when
    every port of the range has a listener, the search (sequential or
    random) raises [NoAvailablePortFoundError] after probing exactly
    [min(max_tries, range_max - range_min + 1)] ports, and the message of the
    error names the range, the search type and that try count. *)
Theorem find_available_port_all_busy
    (range_min range_max max_tries : Z) (search_type : string) (w : world) :
  range_min <= range_max -> 1 <= max_tries ->
  search_type = sequential \/ search_type = random ->
  (forall p, range_min <= p <= range_max -> p ∈ listeners w) ->
  let tries := Z.min max_tries (range_max - range_min + 1) in
  let r := (find_available_port range_min range_max max_tries search_type w).1 in
  let w' := (find_available_port range_min range_max max_tries search_type w).2 in
  r = Raise (NoAvailablePortFoundError
               ("Unable to find available port in range [" +:+ pretty range_min
                +:+ ", " +:+ pretty range_max +:+ "] with " +:+ search_type
                +:+ " search in " +:+ pretty tries +:+ " tries."))
  /\ (exists ps,
        probed w' = probed w ++ ps
        /\ Z.of_nat (length ps) = tries
        /\ NoDup ps
        /\ (forall p, p ∈ ps -> range_min <= p <= range_max)
        /\ (search_type = sequential -> ps = seqZ range_min tries)).
Proof.
  intros Hrange Htries Htype Hbusy tries r w'.
  assert (Hfail : forall to_try msg,
            (forall p, p ∈ to_try -> range_min <= p <= range_max) ->
            search_outcome (listeners w) to_try msg = Raise (NoAvailablePortFoundError msg)
            /\ scanned (listeners w) to_try = to_try).
  { intros to_try msg Hin.
    destruct (scanned_all_busy w to_try) as [Hs Hf].
    - apply Forall_forall. intros p Hp%Hin. by apply Hbusy.
    - unfold search_outcome. by rewrite Hf. }
  destruct Htype as [-> | ->].
  - pose proof (find_available_port_sequential_eval range_min range_max max_tries w) as E.
    simpl in E. fold tries in E. specialize (E ltac:(unfold tries; lia)).
    destruct (Hfail (seqZ range_min tries)
                (no_available_port_msg range_min range_max sequential tries))
      as [Hr Hs].
    { intros p Hp%elem_of_seqZ. unfold tries in Hp. lia. }
    unfold r, w'. rewrite E, Hr, Hs. simpl. split; [done |].
    exists (seqZ range_min tries).
    split_and!; [done | rewrite length_seqZ; unfold tries; lia | apply NoDup_seqZ | | done].
    intros p Hp%elem_of_seqZ. unfold tries in Hp. lia.
  - destruct (find_available_port_random_eval range_min range_max max_tries w)
      as (to_try & Hsample & E); [lia | fold tries; unfold tries; lia |].
    fold tries in Hsample, E.
    apply random_sample_range in Hsample as (Hlen & Hnd & Hin).
    destruct (Hfail to_try (no_available_port_msg range_min range_max random tries))
      as [Hr Hs].
    { intros p Hp%Hin. lia. }
    unfold r, w'. rewrite E, Hr, Hs. simpl. split; [done |].
    exists to_try. split_and!; [done | done | done | | done].
    intros p Hp%Hin. lia.
Qed.

Lemma find_available_port_all_busy_witness :
  9000 <= 9002 /\ 1 <= 10
  /\ (find_available_port 9000 9002 10 sequential (quiet_world [9000; 9001; 9002])).1
     = Raise (NoAvailablePortFoundError
         "Unable to find available port in range [9000, 9002] with sequential search in 3 tries.")
  /\ probed (find_available_port 9000 9002 10 sequential (quiet_world [9000; 9001; 9002])).2
     = [9000; 9001; 9002].
Proof.
  split; [lia |]. split; [lia |].
  destruct (find_available_port_all_busy 9000 9002 10 sequential
              (quiet_world [9000; 9001; 9002]) ltac:(lia) ltac:(lia))
    as (Hr & ps & Hps & _ & _ & _ & Hseq).
  - left. reflexivity.
  - intros p Hp.
    assert (Ep : p = 9000 \/ p = 9001 \/ p = 9002) by lia.
    destruct Ep as [-> | [-> | ->]]; apply (bool_decide_unpack _); vm_compute; exact I.
  - split; [exact Hr |]. rewrite Hps, (Hseq eq_refl). reflexivity.
Defined.

(** C7: a search type that is neither [sequential] nor [random] makes the
    search raise [InvalidSearchTypeError] before anything is probed, whatever
    the range and the number of tries: the world is left as it was. *)
Theorem find_available_port_invalid_search_type
    (range_min range_max max_tries : Z) (search_type : string) (w : world) :
  search_type <> sequential -> search_type <> random ->
  find_available_port range_min range_max max_tries search_type w
  = (Raise (InvalidSearchTypeError
              ("Invalid search_type " +:+ search_type
               +:+ ". Available options are [sequential|random].")), w)
  /\ probed (find_available_port range_min range_max max_tries search_type w).2
     = probed w.
Proof.
  intros Hseq Hrand. unfold find_available_port.
  rewrite !decide_False by done. done.
Qed.

Lemma find_available_port_invalid_search_type_witness :
  "spiral" <> sequential /\ "spiral" <> random
  /\ find_available_port 9000 9002 10 "spiral" (quiet_world [])
     = (Raise (InvalidSearchTypeError
          "Invalid search_type spiral. Available options are [sequential|random]."),
        quiet_world []).
Proof.
  assert (H1 : "spiral" <> sequential) by discriminate.
  assert (H2 : "spiral" <> random) by discriminate.
  split; [exact H1 |]. split; [exact H2 |].
  exact (proj1 (find_available_port_invalid_search_type 9000 9002 10 "spiral"
                  (quiet_world []) H1 H2)).
Defined.

(** C10: for a range with [range_min <= range_max], a search with
    [max_tries = 0] and a recognised search type probes nothing and raises
    [NoAvailablePortFoundError]; the world is left as it was. *)
Theorem find_available_port_zero_tries
    (range_min range_max : Z) (search_type : string) (w : world) :
  range_min <= range_max ->
  search_type = sequential \/ search_type = random ->
  find_available_port range_min range_max 0 search_type w
  = (Raise (NoAvailablePortFoundError
              (no_available_port_msg range_min range_max search_type 0)), w).
Proof.
  intros Hrange [-> | ->].
  - pose proof (find_available_port_sequential_eval range_min range_max 0 w) as E.
    simpl in E. rewrite Z.min_l in E by lia. rewrite E by lia.
    rewrite seqZ_nil by lia. simpl. by rewrite set_probed_nil.
  - destruct (find_available_port_random_eval range_min range_max 0 w)
      as (to_try & Hsample & E); [lia | lia |].
    rewrite Z.min_l in Hsample, E by lia.
    apply random_sample_range in Hsample as (Hlen & _).
    destruct to_try; [| simpl in Hlen; lia].
    rewrite E. unfold search_outcome. simpl. f_equal.
    apply world_eq; simpl; auto using app_nil_r with lia.
Qed.

Lemma find_available_port_zero_tries_witness :
  9000 <= 9002 /\ (random = sequential \/ random = random)
  /\ find_available_port 9000 9002 0 random (quiet_world [])
     = (Raise (NoAvailablePortFoundError
          "Unable to find available port in range [9000, 9002] with random search in 0 tries."),
        quiet_world []).
Proof.
  split; [lia |]. split; [right; reflexivity |].
  exact (find_available_port_zero_tries 9000 9002 random (quiet_world [])
           ltac:(lia) (or_intror eq_refl)).
Defined.

(** ** The availability check: specified properties *)



(** ** The timed server *)

Lemma serve_until_timeout_requests
    (n fuel : nat) (httpd : TimedHTTPServer) (w : world) (rest : list arrival) :
  timeout_reached httpd = false ->
  arrivals w = replicate n Request ++ rest ->
  serve_until_timeout (n + fuel) httpd w
  = serve_until_timeout fuel httpd
      (set_handled (fun h => h ++ replicate n (RequestHandlerClass httpd))
         (set_arrivals (fun _ => rest) w)).
Proof.
  intros Hflag. revert w. induction n as [| n IH]; intros w Harr; simpl.
  - f_equal. apply world_eq; simpl; auto using app_nil_r.
  - rewrite Hflag. unfold bind, handle_request. rewrite Harr. simpl.
    rewrite IH by done.
    f_equal. apply world_eq; simpl; try done.
    by rewrite <- app_assoc.
Qed.

(** The serve loop ends whenever its budget exceeds the number of arrivals
    that are still due. *)
Lemma serve_until_timeout_terminates
    (fuel : nat) (httpd : TimedHTTPServer) (w : world) :
  (length (arrivals w) < fuel)%nat ->
  (serve_until_timeout fuel httpd w).1 <> OutOfFuel.
Proof.
  revert httpd w. induction fuel as [| fuel IH]; intros httpd w Hfuel; [lia |].
  simpl. destruct (timeout_reached httpd) eqn:Hflag; [done |].
  unfold bind, handle_request.
  destruct (arrivals w) as [| [| |] rest] eqn:Harr; simpl in *.
  - by destruct fuel.
  - apply IH. simpl. lia.
  - by destruct fuel.
  - done.
Qed.

Lemma serving_released (port : Z) (ports : gset Z) :
  port ∉ ports -> ({[port]} ∪ ports) ∖ {[port]} = ports.
Proof.
  intros Hfree. apply set_eq. intros p.
  rewrite elem_of_difference, elem_of_union, elem_of_singleton.
  split; [tauto |]. intros Hp. split; [tauto |]. by intros ->.
Qed.

(** A bind that goes through hands out a server whose flag is down. *)
Lemma TimedHTTPServer_init_can_bind
    (address : string) (port : Z) (handler : string) (timeout : Z) (w : world) :
  can_bind address port w ->
  TimedHTTPServer_init (address, port) handler timeout w
  = (Ok {| server_address := (address, port); RequestHandlerClass := handler;
           timeout := timeout; timeout_reached := false |},
     set_open_socks S (set_serving (fun s => {[port]} ∪ s) w)).
Proof.
  intros (Hhost & Hvalid & Hfree & Hown & Hsys).
  unfold TimedHTTPServer_init. simpl.
  rewrite !decide_True by done. rewrite decide_False by tauto.
  by rewrite Hsys.
Qed.

(** Every sequence of arrivals is a run of requests followed by nothing, by
    a quiet wait or by an interrupt. *)
Lemma arrivals_split (l : list arrival) :
  exists k tail,
    l = replicate k Request ++ tail
    /\ (k + length tail = length l)%nat
    /\ (tail = [] \/ exists rest, tail = Quiet :: rest \/ tail = Interrupt :: rest).
Proof.
  induction l as [| a l (k & tail & -> & Hlen & Htail)].
  - exists 0%nat, []. split_and!; [done | done | by left].
  - destruct a.
    + exists (S k), tail. split_and!; [done | simpl; lia | done].
    + exists 0%nat, (Quiet :: replicate k Request ++ tail).
      split_and!; [done | done | right; eexists; by left].
    + exists 0%nat, (Interrupt :: replicate k Request ++ tail).
      split_and!; [done | done | right; eexists; by right].
Qed.

(** What a server that could bind has done when it returns. *)
Lemma run_timed_http_server_outcome
    (fuel : nat) (address : string) (port : Z) (directory : string) (timeout : Z)
    (w : world) (k : nat) (tail : list arrival) :
  can_bind address port w ->
  arrivals w = replicate k Request ++ tail ->
  (k < fuel)%nat ->
  tail = [] \/ (exists rest, tail = Quiet :: rest \/ tail = Interrupt :: rest) ->
  run_timed_http_server fuel address port directory timeout w
  = (Ok tt,
     set_stdout
       (fun out => out ++ [match tail with
                           | Interrupt :: _ => interrupt_msg
                           | _ => timeout_msg
                           end])
       (set_handled (fun h => h ++ replicate k directory)
          (set_arrivals (fun _ => drop 1 tail) w))).
Proof.
  intros Hbind Harr Hfuel Htail.
  assert (Hown : port ∉ serving w) by (destruct Hbind; tauto).
  unfold run_timed_http_server, bind at 1.
  rewrite (TimedHTTPServer_init_can_bind address port directory timeout w Hbind).
  unfold with_exit, try_except_KeyboardInterrupt, bind at 1.
  replace fuel with (k + S (fuel - S k))%nat by lia.
  erewrite serve_until_timeout_requests; [| done | simpl; exact Harr].
  simpl. unfold bind, handle_request. simpl.
  destruct Htail as [-> | [rest [-> | ->]]]; simpl.
  - destruct (fuel - S k)%nat; simpl; f_equal;
      apply world_eq; simpl; auto using serving_released.
  - destruct (fuel - S k)%nat; simpl; f_equal;
      apply world_eq; simpl; auto using serving_released.
  - f_equal. apply world_eq; simpl; auto using serving_released.
Qed.

(** With a budget above the number of arrivals that are due, a server that
    could bind returns, having changed nothing but the arrivals, what was
    served and what was written. *)
Lemma run_timed_http_server_frame
    (fuel : nat) (address : string) (port : Z) (directory : string) (timeout : Z)
    (w : world) :
  can_bind address port w ->
  (length (arrivals w) < fuel)%nat ->
  exists k rest line,
    run_timed_http_server fuel address port directory timeout w
    = (Ok tt,
       set_stdout (fun out => out ++ [line])
         (set_handled (fun h => h ++ replicate k directory)
            (set_arrivals (fun _ => rest) w)))
    /\ (length rest <= length (arrivals w))%nat
    /\ (line = timeout_msg \/ line = interrupt_msg).
Proof.
  intros Hbind Hfuel.
  destruct (arrivals_split (arrivals w)) as (k & tail & Harr & Hlen & Htail).
  eexists k, (drop 1 tail), _. split.
  - apply run_timed_http_server_outcome; [done | done | lia | done].
  - split; [rewrite length_drop; lia |].
    destruct Htail as [-> | [rest [-> | ->]]]; auto.
Qed.

(** ** The timed server: specified properties *)

(** C8: an interrupt that arrives while the server waits (the server could
    bind, and has served [n] requests) is caught: the call returns normally
    instead of crashing, no later wait is started (what was due after the
    interrupt is left untouched), the listening socket is released (the
    ports served by the process, the listeners and the open sockets are as
    before the call), and the line written is the interrupt message, which
    differs from the timeout message.  Any iteration budget above [n] is
    enough. *)
Theorem run_timed_http_server_interrupt
    (fuel : nat) (address : string) (port : Z) (directory : string) (timeout : Z)
    (w : world) (n : nat) (rest : list arrival) :
  can_bind address port w ->
  arrivals w = replicate n Request ++ Interrupt :: rest ->
  (n < fuel)%nat ->
  let w' := (run_timed_http_server fuel address port directory timeout w).2 in
  run_timed_http_server fuel address port directory timeout w
  = (Ok tt,
     set_stdout (fun out => out ++ [" KeyboardInterrupt received."])
       (set_handled (fun h => h ++ replicate n directory)
          (set_arrivals (fun _ => rest) w)))
  /\ serving w' = serving w
  /\ listeners w' = listeners w
  /\ open_socks w' = open_socks w
  /\ arrivals w' = rest
  /\ stdout w' = stdout w ++ [interrupt_msg]
  /\ interrupt_msg <> timeout_msg.
Proof.
  intros Hbind Harr Hfuel w'.
  assert (E : run_timed_http_server fuel address port directory timeout w
              = (Ok tt,
                 set_stdout (fun out => out ++ [interrupt_msg])
                   (set_handled (fun h => h ++ replicate n directory)
                      (set_arrivals (fun _ => rest) w)))).
  { rewrite (run_timed_http_server_outcome fuel address port directory timeout
               w n (Interrupt :: rest) Hbind Harr Hfuel); [done |].
    right. eexists. by right. }
  unfold w'. rewrite E. simpl. split_and!; done.
Qed.

Lemma run_timed_http_server_interrupt_witness :
  can_bind "0.0.0.0" 9500
    (set_arrivals (fun _ => [Request; Interrupt; Request]) (quiet_world []))
  /\ (1 < 2)%nat
  /\ run_timed_http_server 2 "0.0.0.0" 9500 "site" 600
       (set_arrivals (fun _ => [Request; Interrupt; Request]) (quiet_world []))
     = (Ok tt,
        set_stdout (fun _ => [" KeyboardInterrupt received."])
          (set_handled (fun _ => ["site"])
             (set_arrivals (fun _ => [Request]) (quiet_world [])))).
Proof.
  assert (Hbind : can_bind "0.0.0.0" 9500
            (set_arrivals (fun _ => [Request; Interrupt; Request]) (quiet_world []))).
  { apply (bool_decide_unpack _). vm_compute. exact I. }
  split; [exact Hbind |]. split; [lia |].
  exact (proj1 (run_timed_http_server_interrupt 2 "0.0.0.0" 9500 "site" 600
                  (set_arrivals (fun _ => [Request; Interrupt; Request]) (quiet_world []))
                  1 [Request] Hbind eq_refl ltac:(lia))).
Defined.

(** ** The command *)



(** ** The command: where it departs from the specification *)

(** C2: at the invocation [quickhttp . --time 10m --port 0], with a listener
    on port 8000, the port is given explicitly and the search runs all the
    same: ports 8000 and 8001 are probed and 8001 is announced and
    served. *)
Theorem quickhttp_port_zero_searches :
  let run := quickhttp (fun _ => Some 600) (fun _ => "0:10:00") 5 "." "10m" (Some 0)
               DEFAULT_PORT_RANGE_MIN DEFAULT_PORT_RANGE_MAX DEFAULT_PORT_MAX_TRIES
               DEFAULT_PORT_SEARCH_TYPE (quiet_world [8000]) in
  probed run.2 = [8000; 8001]
  /\ stdout run.2
     = ["Starting http.server at http://0.0.0.0:8001 for directory [.]. Server will stay alive for 0:10:00.";
        "Timeout reached."; "Server closed."].
Proof. vm_compute. split; reflexivity. Qed.

Example scenario_9002 :
  let '(r, w) := find_available_port 9000 9002 10 sequential (quiet_world [9000; 9001; 9002]) in
  r = Raise (NoAvailablePortFoundError
    "Unable to find available port in range [9000, 9002] with sequential search in 3 tries.")
  /\ probed w = [9000; 9001; 9002].
Proof. vm_compute. split; reflexivity. Qed.

Example scenario_idle_timeout :
  run_timed_http_server 1 "0.0.0.0" 9500 "." 1 (quiet_world [])
  = (Ok tt, set_stdout (fun _ => ["Timeout reached."]) (quiet_world [])).
Proof. vm_compute. reflexivity. Qed.

Example scenario_invalid_port :
  (find_available_port 65530 65540 50 sequential
     (quiet_world [65530; 65531; 65532; 65533; 65534; 65535])).1
  = Raise (OverflowError "connect_ex(): port must be 0-65535.")
  /\ (run_timed_http_server 1 "0.0.0.0" 70000 "." 1 (quiet_world [])).1
     = Raise (OverflowError "bind(): port must be 0-65535.")
  /\ (run_timed_http_server 1 "no such host" 9500 "." 1 (quiet_world [])).1
     = Raise (OSError "[Errno -2] Name or service not known").
Proof. vm_compute. split_and!; reflexivity. Qed.

(** * Further properties *)

(** ** The search on any input *)





(** X3: the sequential search stops at its try count: when the first
    [max_tries] ports of the range all have a listener, it raises
    [NoAvailablePortFoundError] after probing exactly those ports, whatever
    the state of the later ports of the range. *)
Theorem sequential_search_gives_up
    (range_min range_max max_tries : Z) (w : world) :
  0 <= max_tries <= range_max - range_min + 1 ->
  (forall j, 0 <= j < max_tries -> range_min + j ∈ listeners w) ->
  find_available_port range_min range_max max_tries sequential w
  = (Raise (NoAvailablePortFoundError
              (no_available_port_msg range_min range_max sequential max_tries)),
     set_probed (fun ps => ps ++ seqZ range_min max_tries) w).
Proof.
  intros Htries Hbusy.
  pose proof (find_available_port_sequential_eval range_min range_max max_tries w) as E.
  simpl in E. rewrite Z.min_l in E by lia. rewrite E by lia.
  destruct (scanned_all_busy w (seqZ range_min max_tries)) as [Hs Hf].
  { apply Forall_seqZ. intros p Hp.
    replace p with (range_min + (p - range_min)) by lia. apply Hbusy. lia. }
  unfold search_outcome. by rewrite Hs, Hf.
Qed.

Lemma sequential_search_gives_up_witness :
  0 <= 3 <= 9010 - 9000 + 1
  /\ (9003 ∉ listeners (quiet_world [9000; 9001; 9002]))
  /\ find_available_port 9000 9010 3 sequential (quiet_world [9000; 9001; 9002])
     = (Raise (NoAvailablePortFoundError
          "Unable to find available port in range [9000, 9010] with sequential search in 3 tries."),
        set_probed (fun ps => ps ++ [9000; 9001; 9002]) (quiet_world [9000; 9001; 9002])).
Proof.
  split; [lia |]. split; [apply (bool_decide_unpack _); vm_compute; exact I |].
  apply (sequential_search_gives_up 9000 9010 3 (quiet_world [9000; 9001; 9002]));
    [lia |].
  intros j Hj. assert (Ej : j = 0 \/ j = 1 \/ j = 2) by lia.
  destruct Ej as [-> | [-> | ->]]; apply (bool_decide_unpack _); vm_compute; exact I.
Defined.

(** X4: a negative [max_tries], or a range whose maximum is more than one below
    its minimum, makes the search raise [ValueError] (from the library call
    that builds the candidates) before anything is probed: the world is left
    as it was. *)
Theorem find_available_port_negative_tries
    (range_min range_max max_tries : Z) (search_type : string) (w : world) :
  search_type = sequential \/ search_type = random ->
  max_tries < 0 \/ range_max + 1 < range_min ->
  exists msg,
    find_available_port range_min range_max max_tries search_type w
    = (Raise (ValueError msg), w).
Proof.
  intros Htype Hneg. apply find_available_port_negative; [done | lia].
Qed.

Lemma find_available_port_negative_tries_witness :
  (sequential = sequential \/ sequential = random)
  /\ (-1 < 0 \/ 9002 + 1 < 9000)
  /\ exists msg,
       find_available_port 9000 9002 (-1) sequential (quiet_world [])
       = (Raise (ValueError msg), quiet_world []).
Proof.
  assert (Hneg : -1 < 0 \/ 9002 + 1 < 9000) by (left; lia).
  split; [left; reflexivity |]. split; [exact Hneg |].
  exact (find_available_port_negative_tries 9000 9002 (-1) sequential (quiet_world [])
           (or_introl eq_refl) Hneg).
Defined.

(** X5: on an empty range ([range_max = range_min - 1]) with a [max_tries] that
    is not negative, nothing is probed and [NoAvailablePortFoundError] is
    raised, reporting 0 tries. *)
Theorem find_available_port_empty_range
    (range_min range_max max_tries : Z) (search_type : string) (w : world) :
  search_type = sequential \/ search_type = random ->
  range_max = range_min - 1 -> 0 <= max_tries ->
  find_available_port range_min range_max max_tries search_type w
  = (Raise (NoAvailablePortFoundError
              (no_available_port_msg range_min range_max search_type 0)), w).
Proof.
  intros [-> | ->] Hempty Htries.
  - pose proof (find_available_port_sequential_eval range_min range_max max_tries w) as E.
    simpl in E. rewrite Z.min_r in E by lia.
    replace (range_max - range_min + 1) with 0 in E by lia.
    rewrite E by lia. rewrite seqZ_nil by lia. simpl. by rewrite set_probed_nil.
  - destruct (find_available_port_random_eval range_min range_max max_tries w)
      as (to_try & Hsample & E); [lia | lia |].
    rewrite Z.min_r in Hsample, E by lia.
    replace (range_max - range_min + 1) with 0 in Hsample, E by lia.
    apply random_sample_range in Hsample as (Hlen & _).
    destruct to_try; [| simpl in Hlen; lia].
    rewrite E. unfold search_outcome. simpl. f_equal.
    apply world_eq; simpl; auto using app_nil_r with lia.
Qed.

Lemma find_available_port_empty_range_witness :
  (random = sequential \/ random = random) /\ 8999 = 9000 - 1 /\ 0 <= 5
  /\ find_available_port 9000 8999 5 random (quiet_world [])
     = (Raise (NoAvailablePortFoundError
          "Unable to find available port in range [9000, 8999] with random search in 0 tries."),
        quiet_world []).
Proof.
  split; [right; reflexivity |]. split; [lia |]. split; [lia |].
  exact (find_available_port_empty_range 9000 8999 5 random (quiet_world [])
           (or_intror eq_refl) ltac:(lia) ltac:(lia)).
Defined.

(** X6: whatever its arguments, the search leaves no socket open and changes
    neither the listeners nor what was written or served: it only appends to
    the probe log (and, for the random search, advances the generator). *)
Theorem find_available_port_no_leak
    (range_min range_max max_tries : Z) (search_type : string) (w : world) :
  let w' := (find_available_port range_min range_max max_tries search_type w).2 in
  open_socks w' = open_socks w
  /\ listeners w' = listeners w
  /\ stdout w' = stdout w
  /\ handled w' = handled w
  /\ arrivals w' = arrivals w
  /\ rand w' = rand w
  /\ probed w `prefix_of` probed w'.
Proof.
  intros w'. unfold w'.
  destruct (find_available_port_frame range_min range_max max_tries search_type w)
    as (ps & calls & -> & _).
  simpl. split_and!; try done. by apply prefix_app_r.
Qed.

(** X17: when every port of the range has a listener and the random search may
    try as many ports as the range holds, it probes each port of the range
    exactly once. *)
Theorem random_search_exhaustive
    (range_min range_max max_tries : Z) (w : world) :
  range_min <= range_max ->
  range_max - range_min + 1 <= max_tries ->
  (forall p, range_min <= p <= range_max -> p ∈ listeners w) ->
  exists ps,
    probed (find_available_port range_min range_max max_tries random w).2
    = probed w ++ ps
    /\ ps ≡ₚ seqZ range_min (range_max - range_min + 1).
Proof.
  intros Hrange Htries Hbusy.
  destruct (find_available_port_candidates range_min range_max max_tries
              random w (or_intror eq_refl) ltac:(lia))
    as (to_try & calls & Hlen & Hnd & Hin & _ & E).
  rewrite Z.min_r in Hlen, E by lia.
  destruct (scanned_all_busy w to_try) as [Hs _].
  { apply Forall_forall. intros p Hp%Hin. by apply Hbusy. }
  exists to_try. rewrite E. simpl. rewrite Hs. split; [done |].
  apply submseteq_length_Permutation.
  - apply NoDup_submseteq; [done |].
    intros p Hp%Hin. apply elem_of_seqZ. lia.
  - rewrite length_seqZ. lia.
Qed.

Lemma random_search_exhaustive_witness :
  9000 <= 9002 /\ 9002 - 9000 + 1 <= 10
  /\ exists ps,
       probed (find_available_port 9000 9002 10 random
                 (quiet_world [9000; 9001; 9002])).2 = [] ++ ps
       /\ ps ≡ₚ seqZ 9000 (9002 - 9000 + 1).
Proof.
  split; [lia |]. split; [lia |].
  apply (random_search_exhaustive 9000 9002 10 (quiet_world [9000; 9001; 9002]));
    [lia | lia |].
  intros p Hp.
  assert (Ep : p = 9000 \/ p = 9001 \/ p = 9002) by lia.
  destruct Ep as [-> | [-> | ->]]; apply (bool_decide_unpack _); vm_compute; exact I.
Defined.

(** ** The timed server on any sequence of arrivals *)

(** X7: the timeout path: when a wait times out after [n] served requests,
    a server that could bind reports the timeout and frees its socket; it
    has served those [n] requests from its directory and what was due later
    is untouched. *)
Theorem run_timed_http_server_timeout
    (fuel : nat) (address : string) (port : Z) (directory : string) (timeout : Z)
    (w : world) (n : nat) (rest : list arrival) :
  can_bind address port w ->
  arrivals w = replicate n Request ++ Quiet :: rest ->
  (n < fuel)%nat ->
  run_timed_http_server fuel address port directory timeout w
  = (Ok tt,
     set_stdout (fun out => out ++ [timeout_msg])
       (set_handled (fun h => h ++ replicate n directory)
          (set_arrivals (fun _ => rest) w))).
Proof.
  intros Hbind Harr Hfuel.
  rewrite (run_timed_http_server_outcome fuel address port directory timeout
             w n (Quiet :: rest) Hbind Harr Hfuel); [done |].
  right. eexists. by left.
Qed.

Lemma run_timed_http_server_timeout_witness :
  can_bind "0.0.0.0" 9500
    (set_arrivals (fun _ => [Request; Request; Quiet; Request]) (quiet_world []))
  /\ (2 < 3)%nat
  /\ run_timed_http_server 3 "0.0.0.0" 9500 "site" 600
       (set_arrivals (fun _ => [Request; Request; Quiet; Request]) (quiet_world []))
     = (Ok tt,
        set_stdout (fun _ => ["Timeout reached."])
          (set_handled (fun _ => ["site"; "site"])
             (set_arrivals (fun _ => [Request]) (quiet_world [])))).
Proof.
  assert (Hbind : can_bind "0.0.0.0" 9500
            (set_arrivals (fun _ => [Request; Request; Quiet; Request]) (quiet_world []))).
  { apply (bool_decide_unpack _). vm_compute. exact I. }
  split; [exact Hbind |]. split; [lia |].
  exact (run_timed_http_server_timeout 3 "0.0.0.0" 9500 "site" 600
           (set_arrivals (fun _ => [Request; Request; Quiet; Request]) (quiet_world []))
           2 [Request] Hbind eq_refl ltac:(lia)).
Defined.

(** X8: whatever arrives, a server that could bind, run with a budget above
    the number of arrivals, returns normally with its socket released.  It
    has served the requests that came before the first quiet wait or
    interrupt, all from its directory, it has consumed nothing after that
    point, and it has written exactly one line: the interrupt message if it
    was interrupted, the timeout message otherwise. *)
Theorem run_timed_http_server_always_closes
    (fuel : nat) (address : string) (port : Z) (directory : string) (timeout : Z)
    (w : world) :
  can_bind address port w ->
  (length (arrivals w) < fuel)%nat ->
  let run := run_timed_http_server fuel address port directory timeout w in
  run.1 = Ok tt
  /\ serving run.2 = serving w
  /\ listeners run.2 = listeners w
  /\ open_socks run.2 = open_socks w
  /\ (exists k rest line,
        handled run.2 = handled w ++ replicate k directory
        /\ arrivals run.2 = rest
        /\ stdout run.2 = stdout w ++ [line]
        /\ ((arrivals w = replicate k Request ++ Interrupt :: rest
             /\ line = interrupt_msg)
            \/ (arrivals w = replicate k Request ++ Quiet :: rest
                /\ line = timeout_msg)
            \/ (arrivals w = replicate k Request /\ rest = []
                /\ line = timeout_msg))).
Proof.
  intros Hbind Hfuel run. unfold run.
  destruct (arrivals_split (arrivals w)) as (k & tail & Harr & Hlen & Htail).
  rewrite (run_timed_http_server_outcome fuel address port directory timeout
             w k tail Hbind Harr ltac:(lia) Htail).
  simpl. split_and!; try done.
  exists k, (drop 1 tail).
  destruct Htail as [-> | [rest [-> | ->]]].
  - exists timeout_msg. split_and!; try done.
    right; right. by rewrite app_nil_r in Harr.
  - exists timeout_msg. split_and!; try done. right; left. done.
  - exists interrupt_msg. split_and!; try done. left. done.
Qed.

Lemma run_timed_http_server_always_closes_witness :
  can_bind "0.0.0.0" 9500
    (set_arrivals (fun _ => [Request; Quiet; Request]) (quiet_world []))
  /\ (3 < 4)%nat
  /\ (run_timed_http_server 4 "0.0.0.0" 9500 "site" 600
        (set_arrivals (fun _ => [Request; Quiet; Request]) (quiet_world []))).1 = Ok tt.
Proof.
  assert (Hbind : can_bind "0.0.0.0" 9500
            (set_arrivals (fun _ => [Request; Quiet; Request]) (quiet_world []))).
  { apply (bool_decide_unpack _). vm_compute. exact I. }
  split; [exact Hbind |]. split; [lia |].
  assert (Hfuel : (length (arrivals (set_arrivals (fun _ => [Request; Quiet; Request])
                                      (quiet_world []))) < 4)%nat) by (simpl; lia).
  exact (proj1 (run_timed_http_server_always_closes 4 "0.0.0.0" 9500 "site" 600
                  (set_arrivals (fun _ => [Request; Quiet; Request]) (quiet_world []))
                  Hbind Hfuel)).
Defined.

(** X9: when the port already has a listener the server cannot bind: the error
    of the constructor leaves the function as it is (the handler for
    interrupts does not apply to it), nothing is written and nothing is
    served. *)
Theorem run_timed_http_server_bind_failure
    (fuel : nat) (address : string) (port : Z) (directory : string) (timeout : Z)
    (w : world) :
  port ∈ listeners w ->
  exists msg,
    run_timed_http_server fuel address port directory timeout w
    = (Raise (OSError msg), w).
Proof.
  intros Hbusy. unfold run_timed_http_server, bind, TimedHTTPServer_init. simpl.
  destruct (decide (address ∈ hosts w)); [| by eexists].
  rewrite decide_True by (by eapply listeners_valid).
  rewrite decide_True by tauto. by eexists.
Qed.

Lemma run_timed_http_server_bind_failure_witness :
  9500 ∈ listeners (quiet_world [9500])
  /\ exists msg,
       run_timed_http_server 5 "0.0.0.0" 9500 "site" 600 (quiet_world [9500])
       = (Raise (OSError msg), quiet_world [9500]).
Proof.
  assert (Hbusy : 9500 ∈ listeners (quiet_world [9500])).
  { apply (bool_decide_unpack _). vm_compute. exact I. }
  split; [exact Hbusy |].
  exact (run_timed_http_server_bind_failure 5 "0.0.0.0" 9500 "site" 600
           (quiet_world [9500]) Hbusy).
Defined.

(** X10: once a server that could bind has returned, its port is free again:
    the availability check answers [True] for it, and a second server can
    be run on it. *)
Theorem run_timed_http_server_port_reusable
    (fuel : nat) (address : string) (port : Z) (directory : string) (timeout : Z)
    (w : world) :
  can_bind address port w ->
  (length (arrivals w) < fuel)%nat ->
  let w1 := (run_timed_http_server fuel address port directory timeout w).2 in
  (is_port_available port w1).1 = Ok true
  /\ can_bind address port w1
  /\ (run_timed_http_server fuel address port directory timeout w1).1 = Ok tt.
Proof.
  intros Hbind Hfuel w1.
  destruct (run_timed_http_server_frame fuel address port directory timeout w Hbind Hfuel)
    as (k & rest & line & E & Hlen & _).
  assert (Hbind1 : can_bind address port w1).
  { unfold w1. rewrite E. exact Hbind. }
  destruct Hbind as (_ & Hvalid & Hfree & _).
  split; [| split; [done |]].
  - rewrite is_port_available_eval. rewrite decide_True by done. simpl.
    unfold w1. rewrite E.
    change (listeners _) with (listeners w).
    by rewrite bool_decide_eq_true_2.
  - destruct (run_timed_http_server_frame fuel address port directory timeout w1)
      as (k' & rest' & line' & -> & _); [done | | done].
    unfold w1. rewrite E. simpl. lia.
Qed.

Lemma run_timed_http_server_port_reusable_witness :
  can_bind "0.0.0.0" 9500
    (set_arrivals (fun _ => [Interrupt; Request]) (quiet_world []))
  /\ (2 < 3)%nat
  /\ (is_port_available 9500
        (run_timed_http_server 3 "0.0.0.0" 9500 "site" 600
           (set_arrivals (fun _ => [Interrupt; Request]) (quiet_world []))).2).1
     = Ok true.
Proof.
  assert (Hbind : can_bind "0.0.0.0" 9500
            (set_arrivals (fun _ => [Interrupt; Request]) (quiet_world []))).
  { apply (bool_decide_unpack _). vm_compute. exact I. }
  split; [exact Hbind |]. split; [lia |].
  assert (Hfuel : (length (arrivals (set_arrivals (fun _ => [Interrupt; Request])
                                      (quiet_world []))) < 3)%nat) by (simpl; lia).
  exact (proj1 (run_timed_http_server_port_reusable 3 "0.0.0.0" 9500 "site" 600
                  (set_arrivals (fun _ => [Interrupt; Request]) (quiet_world []))
                  Hbind Hfuel)).
Defined.

(** X18: the serve loop hands the server back only with [timeout_reached] set,
    and never changes its address, its handler or its timeout. *)
Theorem serve_until_timeout_exit
    (fuel : nat) (httpd httpd' : TimedHTTPServer) (w w' : world) :
  serve_until_timeout fuel httpd w = (Ok httpd', w') ->
  timeout_reached httpd' = true
  /\ server_address httpd' = server_address httpd
  /\ RequestHandlerClass httpd' = RequestHandlerClass httpd
  /\ timeout httpd' = timeout httpd.
Proof.
  revert httpd w. induction fuel as [| fuel IH]; intros httpd w; simpl.
  - destruct (timeout_reached httpd) eqn:Hflag; [| done].
    by intros [= <- _].
  - destruct (timeout_reached httpd) eqn:Hflag; [by intros [= <- _] |].
    unfold bind, handle_request.
    destruct (arrivals w) as [| [| |] rest]; simpl; try done.
    + intros (Ht & Ha & Hh & Hto)%IH. done.
    + apply IH.
    + intros (Ht & Ha & Hh & Hto)%IH. done.
Qed.

Lemma serve_until_timeout_exit_witness :
  exists httpd' w',
    serve_until_timeout 3
      {| server_address := ("0.0.0.0", 9500); RequestHandlerClass := "site";
         timeout := 600; timeout_reached := false |}
      (set_arrivals (fun _ => [Request; Quiet]) (quiet_world [])) = (Ok httpd', w')
    /\ timeout_reached httpd' = true
    /\ server_address httpd' = ("0.0.0.0", 9500).
Proof.
  eexists _, _. split; [vm_compute; reflexivity |].
  match goal with
  | |- timeout_reached ?h = true /\ _ =>
      destruct (serve_until_timeout_exit 3
                  {| server_address := ("0.0.0.0", 9500); RequestHandlerClass := "site";
                     timeout := 600; timeout_reached := false |}
                  h
                  (set_arrivals (fun _ => [Request; Quiet]) (quiet_world []))
                  _ ltac:(vm_compute; reflexivity)) as (Hflag & Haddr & _)
  end.
  split; [exact Hflag | exact Haddr].
Defined.

(** ** The command: port resolution and its failures *)

Section CommandResolution.

Variable parse : string -> option Z.
Variable str_timedelta : Z -> string.

(** X12: when no port is given (or port 0) and the search raises, the command
    ends with that same exception, in the world the search left: nothing is
    written before or after. *)
Theorem quickhttp_search_failure_propagates
    (fuel : nat) (directory time : string) (port : option Z)
    (port_range_min port_range_max port_max_tries : Z)
    (port_search_type : string) (w w1 : world) (e : exn) :
  port = None \/ port = Some 0 ->
  find_available_port port_range_min port_range_max port_max_tries port_search_type w
  = (Raise e, w1) ->
  quickhttp parse str_timedelta fuel directory time port
    port_range_min port_range_max port_max_tries port_search_type w
  = (Raise e, w1)
  /\ stdout w1 = stdout w.
Proof.
  intros Hport Hfind. split.
  - unfold quickhttp. destruct Hport as [-> | ->]; simpl;
      unfold bind at 1; by rewrite Hfind.
  - destruct (find_available_port_frame port_range_min port_range_max
                port_max_tries port_search_type w) as (ps & calls & Hframe & _).
    rewrite Hfind in Hframe. simpl in Hframe. by rewrite Hframe.
Qed.

(** X14: a time expression that the parser cannot read makes the command fail
    with a [TypeError] when it formats the duration: nothing is written, but
    a port search that was due has already run. *)
Theorem quickhttp_unreadable_time
    (fuel : nat) (directory time : string) (port : option Z)
    (port_range_min port_range_max port_max_tries : Z)
    (port_search_type : string) (w : world) :
  parse time = None ->
  let run := quickhttp parse str_timedelta fuel directory time port
               port_range_min port_range_max port_max_tries port_search_type w in
  (forall p, port = Some p -> p <> 0 ->
     run = (Raise (TypeError
              "unsupported type for timedelta seconds component: NoneType"), w))
  /\ (forall found w1,
        port = None \/ port = Some 0 ->
        find_available_port port_range_min port_range_max port_max_tries
          port_search_type w = (Ok found, w1) ->
        run = (Raise (TypeError
                 "unsupported type for timedelta seconds component: NoneType"), w1))
  /\ stdout run.2 = stdout w.
Proof.
  intros Htime run. unfold run, quickhttp. rewrite Htime.
  destruct (find_available_port_frame port_range_min port_range_max
              port_max_tries port_search_type w) as (ps & calls & Hframe & Hfuel).
  split_and!.
  - intros p -> Hp. by rewrite decide_False.
  - intros found w1 [-> | ->] Hfind; simpl; unfold bind at 1; by rewrite Hfind.
  - destruct port as [p |]; [destruct (decide (p = 0)) |]; try done;
      unfold bind at 1;
      destruct (find_available_port _ _ _ _ w) as [[found | err |] w1];
      simpl in *; subst; done.
Qed.

End CommandResolution.

Lemma quickhttp_search_failure_propagates_witness :
  (@None Z = None \/ None = Some 0)
  /\ (quickhttp (fun _ => Some 600) (fun _ => "0:10:00") 5 "." "10m" None
        9000 9002 10 sequential (quiet_world [9000; 9001; 9002])).1
     = Raise (NoAvailablePortFoundError
         "Unable to find available port in range [9000, 9002] with sequential search in 3 tries.").
Proof.
  split; [left; reflexivity |].
  assert (Hfind : find_available_port 9000 9002 10 sequential
                    (quiet_world [9000; 9001; 9002])
                  = (Raise (NoAvailablePortFoundError
                       "Unable to find available port in range [9000, 9002] with sequential search in 3 tries."),
                     set_probed (fun ps => ps ++ [9000; 9001; 9002])
                       (quiet_world [9000; 9001; 9002]))).
  { vm_compute. reflexivity. }
  destruct (quickhttp_search_failure_propagates (fun _ => Some 600) (fun _ => "0:10:00")
              5 "." "10m" None 9000 9002 10 sequential
              (quiet_world [9000; 9001; 9002]) _ _ (or_introl eq_refl) Hfind)
    as [Hrun _].
  rewrite Hrun. reflexivity.
Defined.

Lemma quickhttp_unreadable_time_witness :
  (fun _ : string => @None Z) "soon" = None
  /\ quickhttp (fun _ => None) (fun _ => "") 5 "." "soon" (Some 9500)
       8000 8999 50 sequential (quiet_world [])
     = (Raise (TypeError
          "unsupported type for timedelta seconds component: NoneType"),
        quiet_world []).
Proof.
  split; [reflexivity |].
  destruct (quickhttp_unreadable_time (fun _ => None) (fun _ => "") 5 "." "soon"
              (Some 9500) 8000 8999 50 sequential (quiet_world []) eq_refl)
    as (Hexplicit & _).
  apply (Hexplicit 9500); [reflexivity | lia].
Defined.

